(** * Field projection over paginated results (main.go)

    A shallow embedding of the projection engine of [main.go]:
    [contains], [sanitizeFields], [computeDelta], [doTransform] and the
    method [Result.With], together with the fragments of the Go packages
    [strings] and [reflect] that they call.

    Conventions.
    - Go [int] and [int64] are [Z].  Every integer the engine computes is
      bounded by the payload length, so no operation wraps around.
    - Go strings are byte strings: [string].
    - A slice is [option (list A)]; [None] is the nil slice.
    - [map[string]any] is [gmap string Value].
    - A run-time panic is the [Panic] outcome of the [outcome] monad. *)

From Stdlib Require Import ZArith Lia Ascii.
From stdpp Require Import base option list strings gmap.

Local Open Scope Z_scope.

Set Warnings "-register-all,-clear-no-such-hyp".

(** ** Outcomes: a Go call either returns or panics *)

Inductive panic_value :=
| NilDereference                 (* method call on a nil [reflect.Type] *)
| ValueError (method : string)   (* [reflect.ValueError]: wrong kind for a method *)
| UnexportedField                (* [Value.Interface] on an unexported field *)
| IndexOutOfRange                (* index out of range *)
| SliceBounds.                   (* slice bounds out of range *)

Inductive outcome (A : Type) :=
| Return (a : A)
| Panic (p : panic_value).
Arguments Return {A} a.
Arguments Panic {A} p.

#[global] Instance outcome_ret : MRet outcome := @Return.
#[global] Instance outcome_bind : MBind outcome := fun A B f m =>
  match m with
  | Return a => f a
  | Panic p => Panic p
  end.

(** A loop whose body may panic, threading an accumulator. *)
Fixpoint foldM {A B : Type} (f : A -> B -> outcome A) (l : list B) (a : A)
  : outcome A :=
  match l with
  | [] => Return a
  | b :: l' => a' ← f a b; foldM f l' a'
  end.

(** ** Package [strings] *)

Module strings.

Definition IndexByte (s : string) (c : ascii) : bool :=
  existsb (Ascii.eqb c) (String.list_ascii_of_string s).

Fixpoint TrimLeft (s cutset : string) : string :=
  match s with
  | EmptyString => EmptyString
  | String c s' => if IndexByte cutset c then TrimLeft s' cutset else s
  end.

Fixpoint TrimRight (s cutset : string) : string :=
  match s with
  | EmptyString => EmptyString
  | String c s' =>
      match TrimRight s' cutset with
      | EmptyString =>
          if IndexByte cutset c then EmptyString else String c EmptyString
      | r => String c r
      end
  end.

(** [strings.Trim] for a cut set of ASCII bytes (both cut sets of
    main.go are): Go then trims byte by byte, right end first. *)
Definition Trim (s cutset : string) : string :=
  TrimLeft (TrimRight s cutset) cutset.

(** [strings.Split] for a separator of one byte.  The result always has
    at least one element. *)
Fixpoint Split (s : string) (sep : ascii) : list string :=
  match s with
  | EmptyString => [EmptyString]
  | String c s' =>
      if Ascii.eqb c sep then EmptyString :: Split s' sep
      else match Split s' sep with
           | h :: t => String c h :: t
           | [] => [String c EmptyString]
           end
  end.

End strings.

(** ** Package [reflect] *)

Module reflect.

Inductive Kind :=
| Invalid | Bool | Int | Int8 | Int16 | Int32 | Int64
| Uint | Uint8 | Uint16 | Uint32 | Uint64 | Uintptr
| Float32 | Float64 | Complex64 | Complex128
| Array | Chan | Func | Interface | Map | Pointer | Slice
| String | Struct | UnsafePointer.

#[global] Instance Kind_eq_dec : EqDecision Kind.
Proof. solve_decision. Defined.

(** A struct tag, already split into its [key:"value"] pairs. *)
Definition StructTag := list (string * string).

Definition Get (tag : StructTag) (key : string) : string :=
  match List.find (fun kv => String.eqb kv.1 key) tag with
  | Some kv => kv.2
  | None => EmptyString
  end.

(** [reflect.StructField]: [PkgPath] is empty exactly for exported
    fields. *)
Record StructField := {
  Name : string;
  PkgPath : string;
  Tag : StructTag
}.

Definition IsExported (f : StructField) : bool :=
  String.eqb (PkgPath f) EmptyString.

(** The run-time types the engine can tell apart. *)
Inductive Type_ :=
| StructType (fields : list StructField)
| MapType
| PointerType | SliceType | BoolType | IntType | StringType.

Definition Kind_of (t : Type_) : Kind :=
  match t with
  | StructType _ => Struct
  | MapType => Map
  | PointerType => Pointer
  | SliceType => Slice
  | BoolType => Bool
  | IntType => Int
  | StringType => String
  end.

(** [t.NumField()] and [t.Field(i)] for [i = 0 .. NumField-1]; main.go
    only calls them under [case reflect.Struct]. *)
Definition Fields (t : Type_) : list StructField :=
  match t with
  | StructType fields => fields
  | _ => []
  end.

End reflect.

(** ** Go values

    The values a payload or a record field may hold.  A struct value
    carries its field descriptors (its dynamic type) next to the field
    values; a map value lists its entries in the order [MapKeys] returns
    them, each key as rendered by [Value.String] (for a string key, the
    key itself).  The engine compares kinds with [reflect.Struct] and
    [reflect.Map] only, so booleans, integers, strings, pointers and
    slices stand for every other kind. *)

Inductive Value :=
| NilV                                           (* the nil interface *)
| BoolV (b : bool)
| IntV (z : Z)
| StringV (s : string)
| PointerV (target : option Value)
| SliceV (elems : list Value)
| StructV (fields : list (reflect.StructField * Value))
| MapV (entries : list (string * Value)).

(** [reflect.TypeOf]: [None] is the nil [reflect.Type], returned for a nil
    interface value. *)
Definition TypeOf (v : Value) : option reflect.Type_ :=
  match v with
  | NilV => None
  | BoolV _ => Some reflect.BoolType
  | IntV _ => Some reflect.IntType
  | StringV _ => Some reflect.StringType
  | PointerV _ => Some reflect.PointerType
  | SliceV _ => Some reflect.SliceType
  | StructV fields => Some (reflect.StructType (fields.*1))
  | MapV _ => Some reflect.MapType
  end.

(** [t.Kind()] on a possibly nil [reflect.Type]. *)
Definition Kind (t : option reflect.Type_) : outcome reflect.Kind :=
  match t with
  | Some t => Return (reflect.Kind_of t)
  | None => Panic NilDereference
  end.

(** [v.FieldByName(name)]: the first declared field of that name, or the
    zero [Value] ([None]); panics unless [v] is a struct.  main.go only
    asks for names that [t.Field(i)] returned, which Go finds among the
    declared fields before it looks at promoted ones. *)
Definition FieldByName (v : Value) (name : string)
  : outcome (option (reflect.StructField * Value)) :=
  match v with
  | StructV fields =>
      Return (List.find (fun fv => String.eqb (reflect.Name fv.1) name) fields)
  | _ => Panic (ValueError "FieldByName")
  end.

(** [value.Interface()] on a field obtained by [FieldByName]: panics when
    the field is unexported. *)
Definition Interface (fv : reflect.StructField * Value) : outcome Value :=
  if reflect.IsExported fv.1 then Return fv.2 else Panic UnexportedField.

(** [v.MapKeys()] paired with [v.MapIndex(key)]; panics unless [v] is a
    map. *)
Definition MapEntries (v : Value) : outcome (list (string * Value)) :=
  match v with
  | MapV entries => Return entries
  | _ => Panic (ValueError "MapKeys")
  end.

(** ** Type parameters

    [Result[T]] may be instantiated at a concrete type or at an interface
    type such as [any].  The zero value of an interface type is the nil
    interface, whose [reflect.TypeOf] is nil. *)

Inductive TypeParam :=
| Concrete (t : reflect.Type_)
| InterfaceParam.

(** [reflect.TypeOf(dummy)] for [var dummy T]. *)
Definition TypeOf_zero (T : TypeParam) : option reflect.Type_ :=
  match T with
  | Concrete t => Some t
  | InterfaceParam => None
  end.

(** A payload element is a value of type [T]: of dynamic type [t] when
    [T] is the concrete type [t], any value when [T] is an interface. *)
Definition has_type (T : TypeParam) (v : Value) : Prop :=
  match T with
  | Concrete t => TypeOf v = Some t
  | InterfaceParam => True
  end.

(** ** main.go *)

(** The struct [User] of main.go, as [reflect] describes it. *)
Definition exported (name json : string) : reflect.StructField :=
  {| reflect.Name := name; reflect.PkgPath := EmptyString;
     reflect.Tag := [("json", json)] |}.

Definition UserFields : list reflect.StructField :=
    [ exported "ID" "id"; exported "FirstName" "first_name";
      exported "MiddleName" "middle_name"; exported "LastName" "last_name";
      exported "Surname" "surname"; exported "Age" "age";
      exported "JobTitle" "job_title"; exported "Country" "country";
      exported "City" "city"; exported "Address" "address";
      exported "TZ" "tz"; exported "PictureURL" "picture_url";
      exported "Phone" "phone"; exported "Company" "company";
      exported "Password" "password"; exported "Bio" "bio";
      exported "Email" "email"; exported "Gender" "gender";
      exported "IPAddress" "ip_address"; exported "ArchivedAt" "archived_at";
      exported "CreatedAt" "created_at"; exported "UpdatedAt" "updated_at" ].

Definition User : reflect.Type_ := reflect.StructType UserFields.

Record Result (T : Type) := {
  Page : Z;
  RPP : Z;
  Payload : option (list T)
}.
Arguments Page {T} r.
Arguments RPP {T} r.
Arguments Payload {T} r.

(** [len] of a slice; the nil slice has length 0. *)
Definition len {A : Type} (s : option (list A)) : Z :=
  match s with
  | Some l => Z.of_nat (length l)
  | None => 0
  end.

Definition isNil {A : Type} (s : option (list A)) : bool :=
  match s with
  | Some _ => false
  | None => true
  end.

Definition elems {A : Type} (s : option (list A)) : list A := default [] s.

(** [s[i]] *)
Definition index {A : Type} (s : option (list A)) (i : Z) : outcome A :=
  if bool_decide (0 <= i)
  then match elems s !! Z.to_nat i with
       | Some x => Return x
       | None => Panic IndexOutOfRange
       end
  else Panic IndexOutOfRange.

(** [s[lo:hi]] on a slice whose capacity is its length. *)
Definition subslice {A : Type} (s : option (list A)) (lo hi : Z) : outcome (list A) :=
  if bool_decide (0 <= lo <= hi /\ hi <= len s)
  then Return (take (Z.to_nat (hi - lo)) (drop (Z.to_nat lo) (elems s)))
  else Panic SliceBounds.

(** [sanitizedField] is [[2]string]: the snake_case name first, the
    PascalCase name second. *)
Definition sanitizedField := (string * string)%type.

Definition snake (s : sanitizedField) : string := s.1.
Definition pascal (s : sanitizedField) : string := s.2.

Definition contains (haystack : list sanitizedField) (needle : string) : bool :=
  existsb (fun s => String.eqb needle (snake s)) haystack.

(** The cut set ["\n\a\b\f\r\t\v "]. *)
Definition cutset : string :=
  String.string_of_list_ascii
    [ascii_of_nat 10; ascii_of_nat 7; ascii_of_nat 8; ascii_of_nat 12;
     ascii_of_nat 13; ascii_of_nat 9; ascii_of_nat 11; ascii_of_nat 32].

(** [strings.Trim(strings.Split(record.Tag.Get("json"), ",")[0], " ")] *)
Definition tagValue (record : reflect.StructField) : string :=
  strings.Trim
    (hd EmptyString (strings.Split (reflect.Get (reflect.Tag record) "json") ","%char))
    " ".

(** The body of the loop over [t.Field(i)], for one requested [field]. *)
Definition scanField (field : string) (sanitizedFields : list sanitizedField)
    (record : reflect.StructField) : list sanitizedField :=
  let sanitized : sanitizedField := (tagValue record, reflect.Name record) in
  if String.eqb (snake sanitized) field && negb (contains sanitizedFields (snake sanitized))
  then sanitizedFields ++ [sanitized]
  else sanitizedFields.

(** The body of [for _, field := range fields] under [case reflect.Struct]. *)
Definition sanitizeStruct (t : reflect.Type_) (sanitizedFields : list sanitizedField)
    (field : string) : list sanitizedField :=
  let field := strings.Trim field cutset in
  if String.eqb EmptyString field then sanitizedFields
  else fold_left (scanField field) (reflect.Fields t) sanitizedFields.

(** The body of [for _, key := range fields] under [case reflect.Map]. *)
Definition sanitizeMap (sanitizedFields : list sanitizedField) (key : string)
  : list sanitizedField :=
  let key := strings.Trim key cutset in
  if negb (String.eqb EmptyString key) && negb (contains sanitizedFields key)
  then sanitizedFields ++ [(key, EmptyString)]
  else sanitizedFields.

Definition sanitizeFields (T : TypeParam) (fields : list string)
  : outcome (list sanitizedField) :=
  match TypeOf_zero T with
  | None => Panic NilDereference          (* [t.Kind()] on the nil [Type] *)
  | Some t =>
      match reflect.Kind_of t with
      | reflect.Struct => Return (fold_left (sanitizeStruct t) fields [])
      | reflect.Map => Return (fold_left sanitizeMap fields [])
      | _ => Return []
      end
  end.

(** [float64(payloadSize)] is monotone and exact on the three thresholds,
    so the comparisons are those of the integers. *)
Definition computeDelta (payloadSize : Z) : Z :=
  if (payloadSize <=? 1) || (payloadSize <=? 10 ^ 2) then 1
  else if payloadSize <=? 10 ^ 3 then 2
  else if payloadSize <=? 10 ^ 4 then 3
  else 4.

(** One [field] of the inner loop of [doTransform], on [entryFields]. *)
Definition extract (kind : reflect.Kind) (entryValue : Value)
    (entryFields : gmap string Value) (field : sanitizedField)
  : outcome (gmap string Value) :=
  if decide (reflect.Struct = kind) then
    value ← FieldByName entryValue (pascal field);
    match value with
    | Some fv => x ← Interface fv; Return (<[snake field := x]> entryFields)
    | None => Return entryFields
    end
  else if decide (reflect.Map = kind) then
    entries ← MapEntries entryValue;
    Return (fold_left (fun acc kv =>
                         if String.eqb (snake field) kv.1
                         then <[snake field := kv.2]> acc else acc)
                      entries entryFields)
  else Return entryFields.

(** The body of [for _, entry := range in]. *)
Definition transformEntry (kind : reflect.Kind) (fields : list sanitizedField)
    (entry : Value) : outcome (gmap string Value) :=
  foldM (extract kind entry) fields ∅.

(** [doTransform]: [out] is the chunk's buffer, returned after the
    appends. *)
Fixpoint doTransform (kind : reflect.Kind) (out : list (gmap string Value))
    (in_ : list Value) (fields : list sanitizedField)
  : outcome (list (gmap string Value)) :=
  match in_ with
  | [] => Return out
  | entry :: rest =>
      entryFields ← transformEntry kind fields entry;
      doTransform kind (out ++ [entryFields]) rest fields
  end.

(** The bounds of chunk [i]: [r.Payload[i*chunkSize : end]]. *)
Definition chunkBounds (payloadSize delta chunkSize i : Z) : Z * Z :=
  let end_ := if 1 + i =? delta then payloadSize else (1 + i) * chunkSize in
  (i * chunkSize, end_).

(** The ranges the loop [for i := 0; i < delta; i++] dispatches. *)
Definition chunkRanges (payloadSize : Z) : list (Z * Z) :=
  let delta := computeDelta payloadSize in
  let chunkSize := payloadSize / delta in
  chunkBounds payloadSize delta chunkSize <$> seqZ 0 delta.

(** [With].  The [delta] goroutines write to disjoint buffers and are
    joined before the buffers are read, so their effect is that of running
    them one after the other; a panic in any of them ends the program. *)
Definition With (T : TypeParam) (r : Result Value) (fields : list string)
  : outcome (Result (gmap string Value)) :=
  let transformed := {| Page := Page r; RPP := RPP r; Payload := Some [] |} in
  let payloadSize := len (Payload r) in
  if (0 =? Z.of_nat (length fields)) || isNil (Payload r) || (0 =? payloadSize)
  then Return transformed
  else
    first ← index (Payload r) 0;
    kind ← Kind (TypeOf first);
    if bool_decide (reflect.Struct ≠ kind) && bool_decide (reflect.Map ≠ kind)
    then Return transformed
    else
      sanitizedFields ← sanitizeFields T fields;
      chunks ← mapM (fun bounds =>
                       in_ ← subslice (Payload r) bounds.1 bounds.2;
                       doTransform kind [] in_ sanitizedFields)
                    (chunkRanges payloadSize);
      Return {| Page := Page r; RPP := RPP r; Payload := Some (concat chunks) |}.


(** ** Reference definitions

    What the resolver and a worker are meant to compute, written without
    loops over accumulators; the theorems below compare the code with
    them. *)

(** Every byte of [s] is in [cutset]. *)
Definition allIn (cutset s : string) : bool :=
  forallb (strings.IndexByte cutset) (String.list_ascii_of_string s).

Definition firstByte (s : string) : option ascii :=
  match s with
  | String c _ => Some c
  | EmptyString => None
  end.

Fixpoint lastByte (s : string) : option ascii :=
  match s with
  | EmptyString => None
  | String c EmptyString => Some c
  | String _ s' => lastByte s'
  end.

(** The first declared field whose alias is [name]. *)
Definition firstMatch (fields : list reflect.StructField) (name : string)
  : option reflect.StructField :=
  List.find (fun record => String.eqb (tagValue record) name) fields.

(** Resolution of one raw name against a fixed schema. *)
Definition resolveStep (fields : list reflect.StructField)
    (resolved : list sanitizedField) (raw : string) : list sanitizedField :=
  let name := strings.Trim raw cutset in
  if decide (name = EmptyString) then resolved
  else if contains resolved name then resolved
  else match firstMatch fields name with
       | Some record => resolved ++ [(name, reflect.Name record)]
       | None => resolved
       end.

(** The value a descriptor selects in a record: the first declared field
    of the internal name, or the entry under the external name (the one
    [MapKeys] lists last, should several keys render alike). *)
Definition fieldValue (kind : reflect.Kind) (entry : Value) (field : sanitizedField)
  : option Value :=
  match kind, entry with
  | reflect.Struct, StructV fields =>
      snd <$> List.find (fun fv => String.eqb (reflect.Name fv.1) (pascal field)) fields
  | reflect.Map, MapV entries =>
      snd <$> List.find (fun kv => String.eqb (snake field) kv.1) (rev entries)
  | _, _ => None
  end.

(** The projected record: external name to selected value. *)
Definition projection (kind : reflect.Kind) (fields : list sanitizedField)
    (entry : Value) : gmap string Value :=
  fold_left (fun m field =>
               match fieldValue kind entry field with
               | Some v => <[snake field := v]> m
               | None => m
               end) fields ∅.

(** [Interface] does not panic on the field a descriptor selects. *)
Definition canInterface (fields : list reflect.StructField) (field : sanitizedField)
  : bool :=
  match List.find (fun record => String.eqb (reflect.Name record) (pascal field)) fields with
  | Some record => reflect.IsExported record
  | None => true
  end.

(** Every field the request resolves to is exported. *)
Definition readable (T : TypeParam) (fields : list string) : bool :=
  match T, sanitizeFields T fields with
  | Concrete (reflect.StructType declared), Return resolved =>
      forallb (canInterface declared) resolved
  | _, _ => true
  end.

(** The record shape [With] works on: the kind of a concrete struct or
    map type. *)
Definition shape (T : TypeParam) : option reflect.Kind :=
  match T with
  | Concrete (reflect.StructType _) => Some reflect.Struct
  | Concrete reflect.MapType => Some reflect.Map
  | _ => None
  end.

(** ** Sample inputs *)

(** A [User] with the given [ID] and [FirstName], every other field a
    string naming the field. *)
Definition sampleUser (id firstName : string) : Value :=
  StructV ((fun record =>
              (record,
               if String.eqb (reflect.Name record) "ID" then StringV id
               else if String.eqb (reflect.Name record) "FirstName"
                    then StringV firstName
                    else StringV (reflect.Name record))) <$> UserFields).

Definition threeUsers : Result Value :=
  {| Page := 1; RPP := 3;
     Payload := Some [sampleUser "1" "Ada"; sampleUser "2" "Alan";
                      sampleUser "3" "Grace"] |}.

(** The [i]-th of a run of users, with [ID] the number [i], and a page of
    the first [n] of them. *)
Definition numberedUser (i : nat) : Value :=
  StructV ((fun record =>
              (record,
               if String.eqb (reflect.Name record) "ID" then IntV (Z.of_nat i)
               else StringV (reflect.Name record))) <$> UserFields).

Definition numberedUsers (n : nat) : Result Value :=
  {| Page := 1; RPP := Z.of_nat n; Payload := Some (numberedUser <$> seq 0 n) |}.

(** The request of the concrete scenario: a name, the same name padded,
    an unknown name and the empty string. *)
Definition scenarioRequest : list string :=
  ["first_name"; "first_name "; "unknown"; EmptyString].


(** A payload of type [[]*User]. *)
Definition userPointers : Result Value :=
  {| Page := 1; RPP := 1;
     Payload := Some [PointerV (Some (sampleUser "1" "Ada"))] |}.

(** [struct { name string `json:"name"` }] of package main: a tagged but
    unexported field. *)
Definition hiddenField : reflect.StructField :=
  {| reflect.Name := "name"; reflect.PkgPath := "main";
     reflect.Tag := [("json", "name")] |}.

Definition hiddenFields : list reflect.StructField := [hiddenField].

Definition hiddenRecord : Value := StructV [(hiddenField, StringV "x")].

Definition hiddenResult : Result Value :=
  {| Page := 1; RPP := 1; Payload := Some [hiddenRecord] |}.

(** ** The rest of main.go *)

(** What [json.Unmarshal] stored in [payload] is what
    [parseUsersFromDisk] returns, on the path where the file was read
    and parsed (on the other paths [log.Fatal] ends the program). *)
Definition parseUsersFromDisk (payload : option (list Value)) : Result Value :=
  {| Page := 1; RPP := len payload; Payload := payload |}.

(** The field list of [main]. *)
Definition mainFields : list string :=
  let a := String (ascii_of_nat 7) EmptyString in
  let b := String (ascii_of_nat 8) EmptyString in
  let n := String (ascii_of_nat 10) EmptyString in
  let t := String (ascii_of_nat 9) EmptyString in
  [ "first_name"; a +:+ b +:+ n +:+ "company" +:+ n; "first_name"; "first_name";
    t +:+ n +:+ "first_name" +:+ t; "first_name" +:+ n; "archived_at";
    "middle_name"; "last_name"; "surname"; "picture_url"; "trashed_at";
    EmptyString; n +:+ "tz" +:+ n; "created_at"; "address"; "phone_number";
    "phone"; "email"; "ip_address"; "id" ].

(** [main] from the return of [parseUsersFromDisk] on: the two records it
    prints, [res.Payload[n]] and [r.Payload[n]] for
    [n = len(res.Payload) - 1].  Printing and timing are left out. *)
Definition main (payload : option (list Value)) : outcome (gmap string Value * Value) :=
  let r := parseUsersFromDisk payload in
  res ← With (Concrete User) r mainFields;
  let n := len (Payload res) - 1 in
  partial ← index (Payload res) n;
  original ← index (Payload r) n;
  Return (partial, original).

(** The projection of [twoMaps] on [x]. *)
Definition twoMapsOnX : Result (gmap string Value) :=
  {| Page := 1; RPP := 2; Payload := Some [{["x" := IntV 7]}; ∅] |}.

(** The descriptors the field list of [main] resolves to on [User]. *)
Definition mainResolved : list sanitizedField :=
  [("first_name", "FirstName"); ("company", "Company");
   ("archived_at", "ArchivedAt"); ("middle_name", "MiddleName");
   ("last_name", "LastName"); ("surname", "Surname");
   ("picture_url", "PictureURL"); ("tz", "TZ");
   ("created_at", "CreatedAt"); ("address", "Address");
   ("phone", "Phone"); ("email", "Email");
   ("ip_address", "IPAddress"); ("id", "ID")].

(** ** Reference definitions for the resolver and for repeated projection *)

(** One step of a resolver that looks internal names up with [resolve]. *)
Definition resolveWith (resolve : string -> option string)
    (resolved : list sanitizedField) (raw : string) : list sanitizedField :=
  let name := strings.Trim raw cutset in
  if decide (name = EmptyString) then resolved
  else if contains resolved name then resolved
  else match resolve name with
       | Some internal => resolved ++ [(name, internal)]
       | None => resolved
       end.

(** What the resolver loop keeps true of the descriptors resolved so
    far: distinct external names, each normalized, non-empty and looked
    up to its internal name. *)
Definition resolvedOk (resolve : string -> option string)
    (resolved : list sanitizedField) : Prop :=
  NoDup (snake <$> resolved)
  /\ forall s, s ∈ resolved ->
       strings.Trim (snake s) cutset = snake s /\ snake s <> EmptyString
       /\ resolve (snake s) = Some (pascal s).

(** The lookup [sanitizeFields] performs for a type of each kind. *)
Definition resolver (t : reflect.Type_) (name : string) : option string :=
  match reflect.Kind_of t with
  | reflect.Struct => reflect.Name <$> firstMatch (reflect.Fields t) name
  | reflect.Map => Some EmptyString
  | _ => None
  end.

(** A projected record as a payload element of [Result[map[string]any]]. *)
Definition asRecord (m : gmap string Value) : Value := MapV (map_to_list m).

Definition asResult (r : Result (gmap string Value)) : Result Value :=
  {| Page := Page r; RPP := RPP r;
     Payload := match Payload r with
                | Some l => Some (asRecord <$> l)
                | None => None
                end |}.

(** ** The outcome monad *)

Lemma mapM_outcome_app {A B : Type} (f : A -> outcome B) (l1 l2 : list A) :
  mapM f (l1 ++ l2) = x ← mapM f l1; y ← mapM f l2; Return (x ++ y).
Proof.
  induction l1 as [|a l1 IH]; simpl.
  - destruct (mapM f l2); reflexivity.
  - destruct (f a) as [b|p]; simpl; [|reflexivity].
    rewrite IH. destruct (mapM f l1); simpl; [|reflexivity].
    destruct (mapM f l2); reflexivity.
Qed.

Lemma mapM_outcome_Forall2 {A B : Type} (f : A -> outcome B) l l' :
  mapM f l = Return l' <-> Forall2 (fun x y => f x = Return y) l l'.
Proof.
  revert l'. induction l as [|a l IH]; intros l'; simpl.
  - split.
    + intros [= <-]. constructor.
    + intros H. inversion H. reflexivity.
  - split.
    + destruct (f a) as [b|p] eqn:Hf; simpl; [|discriminate].
      destruct (mapM f l) as [k|p] eqn:Hm; simpl; [|discriminate].
      intros [= <-]. constructor; [assumption|]. apply IH. reflexivity.
    + intros H. inversion H as [|? b ? k Hb Hk]; subst.
      rewrite Hb. simpl. apply IH in Hk. rewrite Hk. reflexivity.
Qed.

Lemma mapM_outcome_fmap {A B : Type} (f : A -> outcome B) (g : A -> B) l :
  Forall (fun x => f x = Return (g x)) l -> mapM f l = Return (g <$> l).
Proof.
  intros H. apply mapM_outcome_Forall2.
  induction H; simpl; constructor; assumption.
Qed.

(** Mapping over the pieces and joining is mapping over the whole. *)
Lemma mapM_outcome_concat {A B C : Type} (f : A -> outcome B) (pieces : list (list A))
    (k : list B -> outcome C) :
  (chunks ← mapM (mapM f) pieces; k (concat chunks))
  = (out ← mapM f (concat pieces); k out).
Proof.
  revert k. induction pieces as [|p pieces IH]; intros k; simpl; [reflexivity|].
  rewrite mapM_outcome_app.
  destruct (mapM f p) as [x|e]; simpl; [|reflexivity].
  specialize (IH (fun out => k (x ++ out))).
  destruct (mapM (mapM f) pieces) as [chunks|e];
    destruct (mapM f (concat pieces)) as [out|e']; simpl in *; exact IH.
Qed.

(** A loop of bodies that each first compute a pure value. *)
Lemma mapM_outcome_bind {X A B : Type} (g : X -> outcome A) (h : A -> outcome B)
    (xs : list X) (ys : list A) :
  mapM g xs = Return ys ->
  mapM (fun x => a ← g x; h a) xs = mapM h ys.
Proof.
  revert ys. induction xs as [|x xs IH]; intros ys; simpl.
  - intros [= <-]. reflexivity.
  - destruct (g x) as [a|p]; simpl; [|discriminate].
    destruct (mapM g xs) as [ys'|p]; simpl; [|discriminate].
    intros [= <-]. simpl. rewrite (IH ys' eq_refl). reflexivity.
Qed.

Lemma doTransform_mapM kind out in_ fields :
  doTransform kind out in_ fields
  = l ← mapM (transformEntry kind fields) in_; Return (out ++ l).
Proof.
  revert out. induction in_ as [|entry rest IH]; intros out; simpl.
  - rewrite app_nil_r. reflexivity.
  - destruct (transformEntry kind fields entry) as [m|p]; simpl; [|reflexivity].
    rewrite IH. destruct (mapM _ rest); simpl; [|reflexivity].
    rewrite <- app_assoc. reflexivity.
Qed.

Lemma doTransform_nil kind in_ fields :
  doTransform kind [] in_ fields = mapM (transformEntry kind fields) in_.
Proof.
  rewrite doTransform_mapM. destruct (mapM _ in_); reflexivity.
Qed.

(** ** Package [strings] *)

(** [strings.Split(s, ",")[0]] is always in range. *)
Lemma Split_nonempty s sep : strings.Split s sep <> [].
Proof.
  destruct s as [|c s]; simpl; [discriminate|].
  destruct (Ascii.eqb c sep); [discriminate|].
  destruct (strings.Split s sep); discriminate.
Qed.

(** The alias is the tag up to the first comma, without spaces around. *)
Example tagValue_options :
  tagValue {| reflect.Name := "Age"; reflect.PkgPath := EmptyString;
              reflect.Tag := [("json", " age,omitempty")] |} = "age".
Proof. reflexivity. Qed.

(** ** Chunk planning *)

Lemma computeDelta_cases n :
  (n <= 100 /\ computeDelta n = 1) \/
  (100 < n <= 1000 /\ computeDelta n = 2) \/
  (1000 < n <= 10000 /\ computeDelta n = 3) \/
  (10000 < n /\ computeDelta n = 4).
Proof.
  unfold computeDelta.
  change (10 ^ 2) with 100. change (10 ^ 3) with 1000. change (10 ^ 4) with 10000.
  destruct (Z.leb_spec n 1), (Z.leb_spec n 100), (Z.leb_spec n 1000),
    (Z.leb_spec n 10000); simpl; lia.
Qed.

(** The ranges, written out for each fan-out degree. *)
Lemma chunkRanges_unfold n :
  chunkRanges n =
    if decide (computeDelta n = 1) then [(0, n)]
    else if decide (computeDelta n = 2) then [(0, n / 2); (n / 2, n)]
    else if decide (computeDelta n = 3)
         then [(0, n / 3); (n / 3, 2 * (n / 3)); (2 * (n / 3), n)]
         else [(0, n / 4); (n / 4, 2 * (n / 4)); (2 * (n / 4), 3 * (n / 4));
               (3 * (n / 4), n)].
Proof.
  unfold chunkRanges.
  destruct (computeDelta_cases n) as [[_ ->]|[[_ ->]|[[_ ->]|[_ ->]]]];
    [change (seqZ 0 1) with [0] | change (seqZ 0 2) with [0; 1]
    | change (seqZ 0 3) with [0; 1; 2] | change (seqZ 0 4) with [0; 1; 2; 3]];
    cbn [fmap list_fmap chunkBounds]; unfold chunkBounds;
    repeat (case_decide; try lia); repeat f_equal; simpl; lia.
Qed.

Lemma take_drop_next {A : Type} (l : list A) (a b : nat) :
  take a (drop b l) ++ drop (b + a) l = drop b l.
Proof. rewrite <- drop_drop. apply take_drop. Qed.

(** The slices the loop takes never go out of bounds, and laid end to end
    they are the payload. *)
Lemma chunkRanges_pieces {A : Type} (payload : list A) :
  exists pieces,
    mapM (fun bounds => subslice (Some payload) bounds.1 bounds.2)
         (chunkRanges (len (Some payload))) = Return pieces
    /\ concat pieces = payload.
Proof.
  rewrite chunkRanges_unfold. simpl len.
  set (n := Z.of_nat (length payload)).
  assert (Hn : n = Z.of_nat (length payload)) by reflexivity.
  assert (0 <= n) by lia.
  destruct (computeDelta_cases n) as [[? ->]|[[? ->]|[[? ->]|[? ->]]]];
    repeat (case_decide; try lia).
  all: simpl; unfold subslice; simpl len; fold n.
  all: rewrite !bool_decide_eq_true_2 by (Z.div_mod_to_equations; lia).
  all: simpl; eexists; (split; [reflexivity|]); simpl; rewrite app_nil_r.
  all: match goal with
       | |- context [take ?a (drop ?b ?l)] =>
           rewrite (take_ge (drop b l) a)
             by (rewrite length_drop; Z.div_mod_to_equations; lia)
       end.
  all: repeat match goal with
         | |- context [take ?a (drop ?b ?l) ++ drop ?c ?l] =>
             replace c with (b + a)%nat by (Z.div_mod_to_equations; lia);
             rewrite take_drop_next
         end.
  all: reflexivity.
Qed.

(** ** Workers *)

Lemma mapM_outcome_ext {A B : Type} (f g : A -> outcome B) l :
  (forall x, f x = g x) -> mapM f l = mapM g l.
Proof.
  intros Hfg. induction l as [|a l IH]; simpl; [reflexivity|].
  rewrite Hfg, IH. reflexivity.
Qed.

Lemma bind_Return {A B : Type} (a : A) (f : A -> outcome B) :
  (Return a ≫= f) = f a.
Proof. reflexivity. Qed.

(** Past its guards, [With] is one pass of the per-record body over the
    whole payload: the chunking cannot be observed. *)
Lemma With_sequential T r payload first fields t :
  Payload r = Some payload ->
  fields <> [] ->
  head payload = Some first ->
  TypeOf first = Some t ->
  reflect.Kind_of t = reflect.Struct \/ reflect.Kind_of t = reflect.Map ->
  With T r fields =
    sanitizedFields ← sanitizeFields T fields;
    out ← mapM (transformEntry (reflect.Kind_of t) sanitizedFields) payload;
    Return {| Page := Page r; RPP := RPP r; Payload := Some out |}.
Proof.
  intros Hp Hf Hhd Ht Hk. unfold With. rewrite Hp.
  replace (0 =? Z.of_nat (length fields)) with false
    by (symmetry; apply Z.eqb_neq; destruct fields; simpl; [congruence|lia]).
  replace (0 =? len (Some payload)) with false
    by (symmetry; apply Z.eqb_neq; destruct payload; simpl; [discriminate|lia]).
  replace (index (Some payload) 0) with (Return first)
    by (destruct payload; inversion Hhd; reflexivity).
  cbn [isNil orb]. rewrite !bind_Return, Ht. cbn [Kind]. rewrite bind_Return.
  rewrite (proj2 (andb_false_iff _ _)).
  2:{ rewrite !bool_decide_eq_false. destruct Hk as [-> | ->]; tauto. }
  destruct (sanitizeFields T fields) as [sfs|p]; [|reflexivity].
  rewrite !bind_Return.
  destruct (chunkRanges_pieces payload) as (pieces & Hpieces & Hcat).
  rewrite (mapM_outcome_bind _ _ _ _ Hpieces).
  rewrite (mapM_outcome_ext _ (mapM (transformEntry (reflect.Kind_of t) sfs)))
    by (intros; apply doTransform_nil).
  rewrite (mapM_outcome_concat _ pieces
             (fun out => Return {| Page := Page r; RPP := RPP r; Payload := Some out |})).
  rewrite Hcat. reflexivity.
Qed.

Lemma find_fmap_fst {A B : Type} (P : A -> bool) (l : list (A * B)) :
  List.find P (l.*1) = fst <$> List.find (fun ab => P ab.1) l.
Proof.
  induction l as [|[a b] l IH]; simpl; [reflexivity|].
  destruct (P a); [reflexivity|assumption].
Qed.

Lemma extract_struct fields m field :
  extract reflect.Struct (StructV fields) m field
  = match List.find (fun fv => String.eqb (reflect.Name fv.1) (pascal field)) fields with
    | Some fv => if reflect.IsExported fv.1
                 then Return (<[snake field := fv.2]> m)
                 else Panic UnexportedField
    | None => Return m
    end.
Proof.
  unfold extract. destruct (decide (reflect.Struct = reflect.Struct)); [|congruence].
  unfold FieldByName, Interface. rewrite bind_Return.
  destruct (List.find _ fields) as [fv|]; [|reflexivity].
  destruct (reflect.IsExported fv.1); reflexivity.
Qed.

Lemma extract_map entries m field :
  extract reflect.Map (MapV entries) m field
  = Return (fold_left (fun acc kv =>
                         if String.eqb (snake field) kv.1
                         then <[snake field := kv.2]> acc else acc) entries m).
Proof.
  unfold extract. destruct (decide (reflect.Struct = reflect.Map)); [discriminate|].
  destruct (decide (reflect.Map = reflect.Map)); [|congruence]. reflexivity.
Qed.

(** On a struct record whose selected fields are exported, the worker's
    loop over the descriptors computes the projection. *)
Lemma foldM_extract_struct fields sanitized m :
  forallb (canInterface (fields.*1)) sanitized = true ->
  foldM (extract reflect.Struct (StructV fields)) sanitized m
  = Return (fold_left (fun m field =>
                         match fieldValue reflect.Struct (StructV fields) field with
                         | Some v => <[snake field := v]> m
                         | None => m
                         end) sanitized m).
Proof.
  revert m. induction sanitized as [|d sanitized IH]; intros m Hok;
    [reflexivity|].
  cbn [forallb] in Hok. apply andb_true_iff in Hok as [Hd Hok].
  cbn [foldM fold_left]. rewrite extract_struct.
  unfold canInterface in Hd. rewrite find_fmap_fst in Hd.
  cbn [fieldValue].
  destruct (List.find _ fields) as [[f v]|]; simpl in Hd |- *.
  - rewrite Hd. apply IH, Hok.
  - apply IH, Hok.
Qed.

Lemma transformEntry_struct fields sanitized :
  forallb (canInterface (fields.*1)) sanitized = true ->
  transformEntry reflect.Struct sanitized (StructV fields)
  = Return (projection reflect.Struct sanitized (StructV fields)).
Proof. apply foldM_extract_struct. Qed.

(** The scan of a map's keys for one external name keeps the value of the
    last key that renders as that name. *)
Lemma scan_keys (name : string) (entries : list (string * Value)) (m : gmap string Value) :
  fold_left (fun acc kv => if String.eqb name kv.1 then <[name := kv.2]> acc else acc)
            entries m
  = match List.find (fun kv => String.eqb name kv.1) (rev entries) with
    | Some kv => <[name := kv.2]> m
    | None => m
    end.
Proof.
  induction entries as [|kv entries IH] using rev_ind; [reflexivity|].
  rewrite fold_left_app, rev_app_distr. simpl.
  destruct (String.eqb name kv.1); [|exact IH].
  rewrite IH. destruct (List.find _ (rev entries)); [|reflexivity].
  apply insert_insert_eq.
Qed.

Lemma foldM_extract_map entries sanitized m :
  foldM (extract reflect.Map (MapV entries)) sanitized m
  = Return (fold_left (fun m field =>
                         match fieldValue reflect.Map (MapV entries) field with
                         | Some v => <[snake field := v]> m
                         | None => m
                         end) sanitized m).
Proof.
  revert m. induction sanitized as [|d sanitized IH]; intros m;
    [reflexivity|].
  cbn [foldM fold_left]. rewrite extract_map, bind_Return, scan_keys, IH.
  cbn [fieldValue]. destruct (List.find _ (rev entries)); reflexivity.
Qed.

Lemma transformEntry_map entries sanitized :
  transformEntry reflect.Map sanitized (MapV entries)
  = Return (projection reflect.Map sanitized (MapV entries)).
Proof. apply foldM_extract_map. Qed.



(** ** Field resolution *)


Lemma contains_app haystack s needle :
  contains (haystack ++ [s]) needle
  = contains haystack needle || String.eqb needle (snake s).
Proof. unfold contains. rewrite existsb_app. simpl. rewrite orb_false_r. reflexivity. Qed.

(** Once [field] is resolved, scanning further declared fields adds
    nothing. *)
Lemma scan_resolved field declared resolved :
  contains resolved field = true ->
  fold_left (scanField field) declared resolved = resolved.
Proof.
  intros Hc. induction declared as [|record declared IH]; [reflexivity|].
  cbn [fold_left]. unfold scanField at 2. cbn [snake fst].
  destruct (String.eqb_spec (tagValue record) field) as [->|_];
    [rewrite Hc|]; exact IH.
Qed.

(** The scan appends the first declared field whose alias is [field]. *)
Lemma scan_firstMatch field declared resolved :
  contains resolved field = false ->
  fold_left (scanField field) declared resolved
  = match firstMatch declared field with
    | Some record => resolved ++ [(field, reflect.Name record)]
    | None => resolved
    end.
Proof.
  intros Hc. induction declared as [|record declared IH]; [reflexivity|].
  cbn [fold_left]. unfold scanField at 2, firstMatch. cbn [snake fst List.find].
  destruct (String.eqb_spec (tagValue record) field) as [->|_]; [|exact IH].
  rewrite Hc. cbn [negb andb]. apply scan_resolved.
  rewrite contains_app. cbn [snake fst]. rewrite String.eqb_refl.
  apply orb_true_r.
Qed.

(** The nested loops of [case reflect.Struct] resolve one raw name as
    [resolveStep] says. *)
Lemma sanitizeStruct_resolveStep declared resolved raw :
  sanitizeStruct (reflect.StructType declared) resolved raw
  = resolveStep declared resolved raw.
Proof.
  unfold sanitizeStruct, resolveStep. cbn [reflect.Fields].
  destruct (String.eqb_spec EmptyString (strings.Trim raw cutset)) as [Heq|Hne].
  - rewrite decide_True by congruence. reflexivity.
  - rewrite decide_False by congruence.
    destruct (contains resolved (strings.Trim raw cutset)) eqn:Hc.
    + apply scan_resolved, Hc.
    + apply scan_firstMatch, Hc.
Qed.

Lemma fold_left_ext {A B : Type} (f g : A -> B -> A) l a :
  (forall a b, f a b = g a b) -> fold_left f l a = fold_left g l a.
Proof.
  intros Hfg. revert a. induction l as [|b l IH]; intros a; simpl;
    [reflexivity|]. rewrite Hfg. apply IH.
Qed.

Lemma sanitizeFields_struct declared fields :
  sanitizeFields (Concrete (reflect.StructType declared)) fields
  = Return (fold_left (resolveStep declared) fields []).
Proof.
  unfold sanitizeFields. cbn [TypeOf_zero reflect.Kind_of]. f_equal.
  apply fold_left_ext, sanitizeStruct_resolveStep.
Qed.

Lemma sanitizeFields_map fields :
  sanitizeFields (Concrete reflect.MapType) fields
  = Return (fold_left sanitizeMap fields []).
Proof. reflexivity. Qed.







(** ** Planning and guards *)

(** C4.  Chunk planning.  For a payload of [n >= 1] records the fan-out
    degree is 1 up to 100 records, 2 up to 1000, 3 up to 10000 and 4
    beyond; the loop dispatches that many ranges; range [i] starts at
    [i * (n / delta)] and ends where range [i+1] starts, the last one
    ending at [n], so each of the first [delta - 1] ranges holds exactly
    [n / delta] records and the last one takes the remainder; every index
    of [0, n) lies in exactly one range; and [n / delta] is never zero. *)
Theorem chunk_planning (n : Z) :
  1 <= n ->
  (n <= 100 -> computeDelta n = 1) /\
  (100 < n <= 1000 -> computeDelta n = 2) /\
  (1000 < n <= 10000 -> computeDelta n = 3) /\
  (10000 < n -> computeDelta n = 4) /\
  Z.of_nat (length (chunkRanges n)) = computeDelta n /\
  (forall i, 0 <= i < computeDelta n ->
     chunkRanges n !! Z.to_nat i
     = Some (i * (n / computeDelta n),
             if decide (i = computeDelta n - 1) then n
             else (i + 1) * (n / computeDelta n))) /\
  (forall i lo hi, chunkRanges n !! i = Some (lo, hi) ->
     0 <= lo <= hi /\ hi <= n /\
     (Z.of_nat i < computeDelta n - 1 -> hi - lo = n / computeDelta n) /\
     (Z.of_nat i = computeDelta n - 1 -> hi = n /\ n / computeDelta n <= hi - lo)) /\
  (forall k, 0 <= k < n ->
     exists! i, exists lo hi, chunkRanges n !! i = Some (lo, hi) /\ lo <= k < hi) /\
  1 <= n / computeDelta n.
Proof.
  intros Hn. rewrite chunkRanges_unfold.
  destruct (computeDelta_cases n) as [[? ->]|[[? ->]|[[? ->]|[? ->]]]];
    repeat (case_decide; try lia).
  all: match goal with
       | |- context [Z.div ?m ?d] =>
           assert (Hq : 0 <= m / d /\ d * (m / d) <= m < d * (m / d) + d)
             by (Z.div_mod_to_equations; lia);
           set (q := m / d) in *; clearbody q
       end.
  all: split_and!; try lia; try reflexivity.
  all: try (intros i Hi;
            assert (Hi' : i = 0 \/ i = 1 \/ i = 2 \/ i = 3) by lia;
            destruct Hi' as [->|[->|[->| ->]]]; try lia;
            simpl; repeat case_decide; try lia; do 2 f_equal; lia).
  all: try (intros i lo hi Hl;
            destruct i as [|[|[|[|i]]]]; simpl in Hl; simplify_eq; lia).
  all: intros k Hk;
       destruct (Z.lt_ge_cases k q), (Z.lt_ge_cases k (2 * q)),
         (Z.lt_ge_cases k (3 * q)); try lia.
  all: first [ exists 0%nat; split; [eexists _, _; split; [reflexivity|lia]|]
             | exists 1%nat; split; [eexists _, _; split; [reflexivity|lia]|]
             | exists 2%nat; split; [eexists _, _; split; [reflexivity|lia]|]
             | exists 3%nat; split; [eexists _, _; split; [reflexivity|lia]|] ].
  all: intros j (lo & hi & Hl & Hb);
       destruct j as [|[|[|[|j]]]]; simpl in Hl; simplify_eq; lia.
Qed.

(** A sample of C4: 10001 records are split four ways, 2500 records to
    each of the first three chunks. *)
Lemma chunk_planning_witness :
  1 <= 10001 /\ computeDelta 10001 = 4 /\ 1 <= 10001 / computeDelta 10001.
Proof.
  pose proof (chunk_planning 10001 ltac:(lia)) as (_ & _ & _ & H4 & _ & _ & _ & _ & Hcs).
  split; [lia|]. split; [apply H4; lia|exact Hcs].
Defined.

Lemma With_guard_fields T r :
  With T r [] = Return {| Page := Page r; RPP := RPP r; Payload := Some [] |}.
Proof. reflexivity. Qed.

Lemma With_guard_payload T r fields :
  len (Payload r) = 0 ->
  With T r fields = Return {| Page := Page r; RPP := RPP r; Payload := Some [] |}.
Proof.
  intros H. unfold With. rewrite H. cbn [Z.eqb]. rewrite !orb_true_r. reflexivity.
Qed.

Lemma With_guard_kind T r first rest fields kind :
  Payload r = Some (first :: rest) ->
  Kind (TypeOf first) = Return kind ->
  kind <> reflect.Struct -> kind <> reflect.Map ->
  With T r fields = Return {| Page := Page r; RPP := RPP r; Payload := Some [] |}.
Proof.
  intros Hp Hk Hs Hm. unfold With. rewrite Hp.
  destruct (_ || _ || _); [reflexivity|].
  change (index (Some (first :: rest)) 0) with (Return first).
  rewrite bind_Return, Hk, bind_Return.
  rewrite !bool_decide_eq_true_2 by congruence. reflexivity.
Qed.

(** C10.  Unsupported shape at the public interface.  When the payload is
    not empty and the run-time kind of its first element is neither
    struct nor map, [With] returns, for any field list and without
    panicking, the original [Page] and [RPP] with a payload that is not
    nil and has length zero. *)
Theorem unsupported_shape T r first rest fields kind :
  Payload r = Some (first :: rest) ->
  Kind (TypeOf first) = Return kind ->
  kind <> reflect.Struct -> kind <> reflect.Map ->
  exists out,
    With T r fields = Return out
    /\ Page out = Page r /\ RPP out = RPP r
    /\ Payload out = Some [] /\ isNil (Payload out) = false
    /\ len (Payload out) = 0.
Proof.
  intros Hp Hk Hs Hm. eexists. split; [eapply With_guard_kind; eassumption|].
  repeat split.
Qed.

(** A sample of C10: a payload of type [[]*User]. *)
Lemma unsupported_shape_witness :
  exists out,
    With (Concrete reflect.PointerType)
         {| Page := 2; RPP := 10;
            Payload := Some [PointerV (Some (sampleUser "1" "Ada")); PointerV None] |}
         ["first_name"] = Return out
    /\ Page out = 2 /\ RPP out = 10
    /\ Payload out = Some [] /\ isNil (Payload out) = false
    /\ len (Payload out) = 0.
Proof.
  eapply (unsupported_shape _ {| Page := 2; RPP := 10; Payload := Some _ |});
    [reflexivity|reflexivity|discriminate|discriminate].
Defined.

Lemma mapM_outcome_length {A B : Type} (f : A -> outcome B) l l' :
  mapM f l = Return l' -> length l' = length l.
Proof.
  intros H. apply mapM_outcome_Forall2 in H. symmetry.
  eapply Forall2_length, H.
Qed.

(** Past its guards, [With] returns as many records as it was given. *)
Lemma With_sequential_length T r payload first fields t out :
  Payload r = Some payload ->
  fields <> [] ->
  head payload = Some first ->
  TypeOf first = Some t ->
  reflect.Kind_of t = reflect.Struct \/ reflect.Kind_of t = reflect.Map ->
  With T r fields = Return out ->
  len (Payload out) = len (Payload r).
Proof.
  intros Hp Hf Hhd Ht Hk HW.
  rewrite (With_sequential T r payload first fields t) in HW by assumption.
  destruct (sanitizeFields T fields) as [sfs|]; [|discriminate].
  rewrite bind_Return in HW.
  destruct (mapM _ payload) as [l|] eqn:Hm; [|discriminate].
  injection HW as <-. rewrite Hp. cbn [Payload len].
  apply mapM_outcome_length in Hm. congruence.
Qed.

(** A nil first element stops [With] at [reflect.TypeOf(r.Payload[0]).Kind()]. *)
Lemma With_nil_first T r first rest fields :
  Payload r = Some (first :: rest) ->
  fields <> [] ->
  TypeOf first = None ->
  With T r fields = Panic NilDereference.
Proof.
  intros Hp Hf Ht. unfold With. rewrite Hp.
  replace (0 =? Z.of_nat (length fields)) with false
    by (symmetry; apply Z.eqb_neq; destruct fields; simpl; [congruence|lia]).
  replace (0 =? len (Some (first :: rest))) with false
    by (symmetry; apply Z.eqb_neq; simpl; lia).
  change (index (Some (first :: rest)) 0) with (Return first).
  cbn [isNil orb]. rewrite bind_Return, Ht. reflexivity.
Qed.

(** C2, amended.  With an empty field list, a nil payload or a payload of
    length zero, [With] returns the same [Page] and [RPP] and an empty
    payload.  When the input payload is not empty, a payload of length
    zero comes out on two paths only: that short-circuit (the field list
    is empty) and the guard on the record shape (the kind of the first
    element is neither struct nor map). *)
Theorem empty_payload_paths T r fields :
  (fields = [] \/ Payload r = None \/ len (Payload r) = 0 ->
   With T r fields = Return {| Page := Page r; RPP := RPP r; Payload := Some [] |})
  /\
  (forall out,
     With T r fields = Return out ->
     len (Payload out) = 0 -> 0 < len (Payload r) ->
     fields = [] \/
     exists first kind,
       head (elems (Payload r)) = Some first
       /\ Kind (TypeOf first) = Return kind
       /\ kind <> reflect.Struct /\ kind <> reflect.Map).
Proof.
  split.
  - intros [-> | [Hnil | Hlen]].
    + apply With_guard_fields.
    + apply With_guard_payload. rewrite Hnil. reflexivity.
    + apply With_guard_payload, Hlen.
  - intros out HW Hout Hin.
    destruct fields as [|f fields]; [left; reflexivity|right].
    destruct (Payload r) as [[|first rest]|] eqn:Hp; simpl in Hin; try lia.
    exists first. cbn [elems default head].
    destruct (TypeOf first) as [t|] eqn:Ht.
    + exists (reflect.Kind_of t). split; [reflexivity|]. split; [reflexivity|].
      destruct (decide (reflect.Kind_of t = reflect.Struct)) as [Hs|Hs];
        [|destruct (decide (reflect.Kind_of t = reflect.Map)) as [Hm|Hm]];
        [exfalso..|tauto].
      all: pose proof (With_sequential_length T r _ first (f :: fields) t out
                         Hp ltac:(discriminate) eq_refl Ht ltac:(tauto) HW) as Hlen;
           rewrite Hp in Hlen; simpl in Hlen; lia.
    + exfalso.
      rewrite (With_nil_first T r first rest (f :: fields) Hp ltac:(discriminate) Ht)
        in HW.
      discriminate.
Qed.

(** A sample of C2: the empty field list on three users. *)
Lemma empty_payload_paths_witness :
  With (Concrete User) threeUsers []
  = Return {| Page := 1; RPP := 3; Payload := Some [] |}.
Proof.
  apply (proj1 (empty_payload_paths (Concrete User) threeUsers [])).
  left. reflexivity.
Defined.

(** C2 as first stated fails: on a payload of pointers and a field list
    that is not empty, [With] returns a payload of length zero although
    no condition of the short-circuit holds. *)
Lemma empty_payload_not_only_short_circuit :
  (exists out,
     With (Concrete reflect.PointerType) userPointers ["first_name"] = Return out
     /\ len (Payload out) = 0 /\ 0 < len (Payload userPointers))
  /\ ~ (["first_name"] = [] \/ Payload userPointers = None
        \/ len (Payload userPointers) = 0).
Proof.
  split.
  - eexists. split; [reflexivity|]. split; reflexivity.
  - intros [H|[H|H]]; discriminate.
Qed.

(** ** Projection of typed payloads *)

Lemma has_type_struct declared v :
  has_type (Concrete (reflect.StructType declared)) v ->
  exists fields, v = StructV fields /\ fields.*1 = declared.
Proof.
  destruct v; simpl; intros [=]. eexists. split; [reflexivity|assumption].
Qed.

Lemma has_type_map v :
  has_type (Concrete reflect.MapType) v -> exists entries, v = MapV entries.
Proof. destruct v; simpl; intros [=]. eexists. reflexivity. Qed.

Lemma sanitizeFields_shape T kind fields :
  shape T = Some kind -> exists resolved, sanitizeFields T fields = Return resolved.
Proof.
  destruct T as [[]|]; simpl; intros [=]; eexists.
  - apply sanitizeFields_struct.
  - apply sanitizeFields_map.
Qed.

(** On a payload of struct or map records, [With] returns the projection
    of every record, in order, provided reflection may read the fields
    the request resolves to. *)
Lemma With_projection T kind r payload fields resolved :
  shape T = Some kind ->
  Payload r = Some payload -> payload <> [] ->
  Forall (has_type T) payload ->
  fields <> [] ->
  sanitizeFields T fields = Return resolved ->
  readable T fields = true ->
  With T r fields
  = Return {| Page := Page r; RPP := RPP r;
              Payload := Some (projection kind resolved <$> payload) |}.
Proof.
  intros Hshape Hp Hne Hty Hf Hres Hread.
  destruct payload as [|first rest]; [congruence|].
  assert (Hfirst : has_type T first) by (inversion Hty; assumption).
  destruct T as [[declared| | | | | |]|]; simpl in Hshape; try discriminate;
    injection Hshape as <-.
  - rewrite (With_sequential _ r _ first fields (reflect.StructType declared)
               Hp Hf eq_refl Hfirst (or_introl eq_refl)).
    rewrite Hres, bind_Return. cbn [reflect.Kind_of].
    rewrite (mapM_outcome_fmap _ (projection reflect.Struct resolved));
      [reflexivity|].
    unfold readable in Hread. rewrite Hres in Hread.
    eapply Forall_impl; [exact Hty|]. intros v Hv.
    apply has_type_struct in Hv as (fvs & -> & <-).
    apply transformEntry_struct, Hread.
  - rewrite (With_sequential _ r _ first fields reflect.MapType
               Hp Hf eq_refl Hfirst (or_intror eq_refl)).
    rewrite Hres, bind_Return. cbn [reflect.Kind_of].
    rewrite (mapM_outcome_fmap _ (projection reflect.Map resolved));
      [reflexivity|].
    eapply Forall_impl; [exact Hty|]. intros v Hv.
    apply has_type_map in Hv as (entries & ->).
    apply transformEntry_map.
Qed.



(** The chunked code run on both sides of the first two thresholds:
    record [i] of the output is the projection of record [i] of the
    input. *)
Example With_across_thresholds :
  Forall (fun n =>
            With (Concrete User) (numberedUsers n) ["id"]
            = Return {| Page := 1; RPP := Z.of_nat n;
                        Payload := Some ((fun i => {["id" := IntV (Z.of_nat i)]})
                                           <$> seq 0 n) |})
         [1; 100; 101; 1000; 1001]%nat.
Proof. repeat constructor; vm_compute; reflexivity. Qed.


(** C3.  Shape asymmetry.  On a non-empty payload of struct records and a
    non-empty field list none of whose names resolves (each normalizes to
    the empty string or is the alias of no declared field), [With] does
    not return an empty payload: it returns one empty map per input
    record, so the payload keeps its length.  The empty field list, in
    contrast, yields length zero. *)
Theorem unresolved_fields_keep_length declared r payload fields :
  Payload r = Some payload -> payload <> [] ->
  Forall (has_type (Concrete (reflect.StructType declared))) payload ->
  fields <> [] ->
  (forall raw, raw ∈ fields ->
     strings.Trim raw cutset = EmptyString
     \/ forall record, record ∈ declared ->
          tagValue record <> strings.Trim raw cutset) ->
  With (Concrete (reflect.StructType declared)) r fields
  = Return {| Page := Page r; RPP := RPP r;
              Payload := Some (replicate (length payload) ∅) |}
  /\ len (Some (replicate (length payload) (∅ : gmap string Value))) = len (Payload r)
  /\ 0 < len (Payload r)
  /\ With (Concrete (reflect.StructType declared)) r []
     = Return {| Page := Page r; RPP := RPP r; Payload := Some [] |}.
Proof.
  intros Hp Hne Hty Hf Hunknown.
  assert (Hres : sanitizeFields (Concrete (reflect.StructType declared)) fields
                 = Return []).
  { rewrite sanitizeFields_struct. f_equal.
    induction fields as [|raw fields IH]; [reflexivity|].
    cbn [fold_left].
    assert (resolveStep declared [] raw = []) as ->.
    { unfold resolveStep. case_decide; [reflexivity|]. cbn [contains existsb].
      destruct (firstMatch declared _) as [record|] eqn:Hfm; [|reflexivity].
      exfalso. apply find_some in Hfm as [Hin Heq].
      apply String.eqb_eq in Heq. apply list_elem_of_In in Hin.
      destruct (Hunknown raw) as [Hempty|Hneq];
        [left|congruence|eapply Hneq; eassumption]. }
    destruct fields as [|raw' fields]; [reflexivity|].
    apply IH; [discriminate|]. intros raw'' Hin. apply Hunknown. right. assumption. }
  split; [|split; [|split]].
  - assert (Hread : readable (Concrete (reflect.StructType declared)) fields = true)
      by (unfold readable; rewrite Hres; reflexivity).
    rewrite (With_projection (Concrete (reflect.StructType declared))
               reflect.Struct r payload fields [] eq_refl Hp Hne Hty Hf Hres Hread).
    do 3 f_equal. clear.
    induction payload as [|entry payload IH]; [reflexivity|].
    rewrite fmap_cons. cbn [length replicate]. f_equal. exact IH.
  - rewrite Hp. simpl. rewrite length_replicate. reflexivity.
  - rewrite Hp. destruct payload; [congruence|]. simpl. lia.
  - apply With_guard_fields.
Qed.

(** A sample of C3: three users, two unknown names. *)
Lemma unresolved_fields_keep_length_witness :
  With (Concrete User) threeUsers ["unknown_a"; "unknown_b"]
  = Return {| Page := 1; RPP := 3; Payload := Some [∅; ∅; ∅] |}.
Proof.
  refine (proj1 (unresolved_fields_keep_length UserFields threeUsers
                   (elems (Payload threeUsers)) ["unknown_a"; "unknown_b"]
                   eq_refl _ _ _ _)).
  - discriminate.
  - repeat constructor.
  - discriminate.
  - intros raw Hin. right. intros record Hrec.
    apply list_elem_of_In in Hin. apply list_elem_of_In in Hrec.
    simpl in Hin, Hrec.
    repeat (destruct Hin as [<-|Hin]; [|]); try contradiction;
      repeat (destruct Hrec as [<-|Hrec]; [vm_compute; discriminate|]);
      contradiction.
Defined.

(** ** Key sets of projected struct records *)

Lemma find_is_Some {A : Type} (P : A -> bool) (l : list A) (x : A) :
  x ∈ l -> P x = true -> is_Some (List.find P l).
Proof.
  intros Hin HP. destruct (List.find P l) eqn:Hfind; [eauto|].
  apply list_elem_of_In in Hin. eapply find_none in Hfind; [|exact Hin].
  congruence.
Qed.

(** In a record of type [declared], the field a resolved descriptor names
    is there. *)
Lemma FieldByName_declared declared fields record :
  fields.*1 = declared -> record ∈ declared ->
  exists fv, FieldByName (StructV fields) (reflect.Name record) = Return (Some fv)
             /\ reflect.Name fv.1 = reflect.Name record.
Proof.
  intros Hty Hin. unfold FieldByName.
  destruct (find_is_Some
              (fun f => String.eqb (reflect.Name f) (reflect.Name record))
              declared record Hin (String.eqb_refl _)) as [f Hf].
  rewrite <- Hty, find_fmap_fst in Hf.
  destruct (List.find _ fields) as [fv|] eqn:Hfind; [|discriminate].
  exists fv. split; [reflexivity|].
  apply find_some in Hfind as [_ Heq]. apply String.eqb_eq in Heq. exact Heq.
Qed.






(** ** Panics *)

(** [With] cannot panic when [T] is a concrete type and the fields the
    request resolves to are exported. *)
Lemma With_returns t r fields :
  Forall (has_type (Concrete t)) (elems (Payload r)) ->
  readable (Concrete t) fields = true ->
  exists out, With (Concrete t) r fields = Return out
              /\ Page out = Page r /\ RPP out = RPP r
              /\ isNil (Payload out) = false.
Proof.
  intros Hty Hread.
  destruct (decide (fields = [])) as [->|Hf].
  { eexists. split; [apply With_guard_fields|]. repeat split. }
  destruct (Payload r) as [[|first rest]|] eqn:Hp.
  - eexists. split; [apply With_guard_payload; rewrite Hp; reflexivity|].
    repeat split.
  - cbn [elems default] in Hty.
    assert (Hfirst : TypeOf first = Some t) by (inversion Hty; assumption).
    destruct (shape (Concrete t)) as [kind|] eqn:Hshape.
    + destruct (sanitizeFields_shape _ _ fields Hshape) as [resolved Hres].
      eexists. split; [|repeat split].
      * exact (With_projection (Concrete t) kind r (first :: rest) fields resolved
                 Hshape Hp ltac:(discriminate) Hty Hf Hres Hread).
      * reflexivity.
      * reflexivity.
      * reflexivity.
    + eexists. split; [|repeat split].
      * eapply (With_guard_kind _ r first rest fields (reflect.Kind_of t));
          [exact Hp|rewrite Hfirst; reflexivity|..];
          destruct t; simpl in Hshape |- *; congruence.
      * reflexivity.
      * reflexivity.
      * reflexivity.
  - eexists. split; [apply With_guard_payload; rewrite Hp; reflexivity|].
    repeat split.
Qed.

(** C8 fails on the code: [Result[any]] holding three [User] values is a
    well-formed input, and [With] panics on it.  The guard of [With]
    reads the kind of the first element ([reflect.Struct]) and lets the
    call through; [sanitizeFields[any]] then takes [reflect.TypeOf] of
    the zero value of [any], the nil interface, and calls [Kind] on the
    nil [reflect.Type].  A nil first element panics in [With] itself,
    and a tagged but unexported struct field panics in [doTransform]. *)
Theorem With_panics :
  Forall (has_type InterfaceParam) (elems (Payload threeUsers))
  /\ With InterfaceParam threeUsers ["first_name"] = Panic NilDereference
  /\ With InterfaceParam {| Page := 1; RPP := 1; Payload := Some [NilV] |} ["first_name"]
     = Panic NilDereference
  /\ With (Concrete (reflect.StructType hiddenFields)) hiddenResult ["name"]
     = Panic UnexportedField.
Proof.
  split; [repeat constructor|]. repeat split; vm_compute; reflexivity.
Qed.

(** ** Deduplication *)






(** The comparison of names is exact: names that differ in case are
    different names. *)
Example names_are_case_sensitive :
  sanitizeFields (Concrete reflect.MapType) ["x"; "X"]
  = Return [("x", EmptyString); ("X", EmptyString)].
Proof. vm_compute. reflexivity. Qed.

(** ** Normalization *)

Lemma string_app_assoc (a b c : string) : (a +:+ b) +:+ c = a +:+ (b +:+ c).
Proof.
  induction a as [|x a IH]; [reflexivity|].
  change (String x ((a +:+ b) +:+ c) = String x (a +:+ (b +:+ c))).
  f_equal. exact IH.
Qed.

Lemma cutset_bytes c :
  strings.IndexByte cutset c = true <->
  c ∈ [ascii_of_nat 10; ascii_of_nat 7; ascii_of_nat 8; ascii_of_nat 12;
       ascii_of_nat 13; ascii_of_nat 9; ascii_of_nat 11; ascii_of_nat 32].
Proof.
  unfold strings.IndexByte, cutset.
  rewrite String.list_ascii_of_string_of_list_ascii, existsb_exists.
  split.
  - intros (x & Hin & Heq). apply Ascii.eqb_eq in Heq. subst x.
    apply list_elem_of_In, Hin.
  - intros Hin. exists c. split; [apply list_elem_of_In, Hin|apply Ascii.eqb_refl].
Qed.

Lemma string_app_cons x (a b : string) : String x a +:+ b = String x (a +:+ b).
Proof. reflexivity. Qed.

Lemma TrimLeft_spec s cs :
  exists pre,
    s = pre +:+ strings.TrimLeft s cs
    /\ allIn cs pre = true
    /\ forall c, firstByte (strings.TrimLeft s cs) = Some c ->
                 strings.IndexByte cs c = false.
Proof.
  induction s as [|x s (pre & Hs & Hpre & Hfirst)]; cbn [strings.TrimLeft].
  - exists EmptyString. repeat split. discriminate.
  - destruct (strings.IndexByte cs x) eqn:Hx.
    + exists (String x pre). rewrite string_app_cons, <- Hs.
      split; [reflexivity|]. split; [|exact Hfirst].
      unfold allIn in *. simpl. rewrite Hx. exact Hpre.
    + exists EmptyString. repeat split. simpl. intros c [= <-]. exact Hx.
Qed.

Lemma TrimRight_spec s cs :
  exists post,
    s = strings.TrimRight s cs +:+ post
    /\ allIn cs post = true
    /\ forall c, lastByte (strings.TrimRight s cs) = Some c ->
                 strings.IndexByte cs c = false.
Proof.
  induction s as [|x s (post & Hs & Hpost & Hlast)]; cbn [strings.TrimRight].
  - exists EmptyString. repeat split. discriminate.
  - destruct (strings.TrimRight s cs) as [|y r] eqn:Hr.
    + change (s = post) in Hs. subst post.
      destruct (strings.IndexByte cs x) eqn:Hx.
      * exists (String x s). repeat split; [|discriminate].
        unfold allIn in *. simpl. rewrite Hx. exact Hpost.
      * exists s. repeat split; [assumption|]. simpl. intros c [= <-]. exact Hx.
    + exists post. rewrite string_app_cons, <- Hs.
      split; [reflexivity|]. split; [assumption|]. exact Hlast.
Qed.

Lemma lastByte_app pre u :
  u <> EmptyString -> lastByte (pre +:+ u) = lastByte u.
Proof.
  intros Hu. induction pre as [|x pre IH]; [reflexivity|].
  rewrite string_app_cons. cbn [lastByte].
  destruct (pre +:+ u) eqn:Happ; [|exact IH].
  destruct pre; [change (u = EmptyString) in Happ; congruence|].
  rewrite string_app_cons in Happ. discriminate.
Qed.

(** [Trim] cuts off both ends the longest runs of bytes of the cut set. *)
Lemma Trim_spec s cs :
  exists pre post,
    s = pre +:+ strings.Trim s cs +:+ post
    /\ allIn cs pre = true /\ allIn cs post = true
    /\ (forall c, firstByte (strings.Trim s cs) = Some c ->
                  strings.IndexByte cs c = false)
    /\ (forall c, lastByte (strings.Trim s cs) = Some c ->
                  strings.IndexByte cs c = false).
Proof.
  unfold strings.Trim.
  destruct (TrimRight_spec s cs) as (post & Hs & Hpost & Hlast).
  destruct (TrimLeft_spec (strings.TrimRight s cs) cs) as (pre & Hr & Hpre & Hfirst).
  exists pre, post. split; [|repeat split; try assumption].
  - rewrite <- string_app_assoc, <- Hr. exact Hs.
  - intros c Hc. apply Hlast. rewrite Hr, lastByte_app; [exact Hc|].
    intros Heq. rewrite Heq in Hc. discriminate.
Qed.

(** [firstMatch] is the first field, in declaration order, with the
    alias. *)
Lemma firstMatch_spec declared name record :
  firstMatch declared name = Some record <->
  exists i : nat,
    declared !! i = Some record /\ tagValue record = name
    /\ forall (j : nat) earlier, (j < i)%nat -> declared !! j = Some earlier ->
                         tagValue earlier <> name.
Proof.
  unfold firstMatch. induction declared as [|f declared IH]; simpl.
  - split; [discriminate|]. intros (i & Hi & _). rewrite lookup_nil in Hi.
    discriminate.
  - destruct (String.eqb_spec (tagValue f) name) as [Heq|Hne].
    + split.
      * intros [= <-]. exists 0%nat. split; [reflexivity|]. split; [assumption|].
        intros j earlier Hj. lia.
      * intros ([|i] & Hi & Htag & Hmin).
        -- simpl in Hi. congruence.
        -- exfalso. apply (Hmin 0%nat f); [lia|reflexivity|exact Heq].
    + rewrite IH. split.
      * intros (i & Hi & Htag & Hmin). exists (S i). split; [exact Hi|].
        split; [exact Htag|]. intros [|j] earlier Hj Hl; simpl in Hl.
        -- congruence.
        -- eapply Hmin; [|exact Hl]. lia.
      * intros ([|i] & Hi & Htag & Hmin); simpl in Hi.
        -- congruence.
        -- exists i. split; [exact Hi|]. split; [exact Htag|].
           intros j earlier Hj Hl. apply (Hmin (S j) earlier); [lia|exact Hl].
Qed.

Lemma firstMatch_None declared name :
  firstMatch declared name = None <->
  forall record, record ∈ declared -> tagValue record <> name.
Proof.
  unfold firstMatch. split.
  - intros Hnone record Hin Heq. apply list_elem_of_In in Hin.
    eapply find_none in Hnone; [|exact Hin]. simpl in Hnone.
    apply String.eqb_neq in Hnone. contradiction.
  - intros Hall. destruct (List.find _ declared) as [record|] eqn:Hfind;
      [|reflexivity].
    apply find_some in Hfind as [Hin Heq]. apply String.eqb_eq in Heq.
    apply list_elem_of_In in Hin. exfalso. eapply Hall; eassumption.
Qed.

(** ** Fixed-schema resolution *)

Lemma first_name_scenario page rpp r1 r2 r3 :
  Forall (has_type (Concrete User)) [r1; r2; r3] ->
  exists fv1 fv2 fv3,
    FieldByName r1 "FirstName" = Return (Some fv1)
    /\ FieldByName r2 "FirstName" = Return (Some fv2)
    /\ FieldByName r3 "FirstName" = Return (Some fv3)
    /\ sanitizeFields (Concrete User) scenarioRequest
       = Return [("first_name", "FirstName")]
    /\ With (Concrete User)
            {| Page := page; RPP := rpp; Payload := Some [r1; r2; r3] |}
            scenarioRequest
       = Return {| Page := page; RPP := rpp;
                   Payload := Some [ {["first_name" := fv1.2]};
                                     {["first_name" := fv2.2]};
                                     {["first_name" := fv3.2]} ] |}.
Proof.
  intros Hty.
  assert (Hres : sanitizeFields (Concrete User) scenarioRequest
                 = Return [("first_name", "FirstName")])
    by (vm_compute; reflexivity).
  assert (Hread : readable (Concrete User) scenarioRequest = true)
    by (vm_compute; reflexivity).
  assert (Hfield : forall r, has_type (Concrete User) r ->
            exists fv, FieldByName r "FirstName" = Return (Some fv)
                       /\ projection reflect.Struct [("first_name", "FirstName")] r
                          = {["first_name" := fv.2]}).
  { intros r Hr. apply has_type_struct in Hr as (fvs & -> & Hfvs).
    destruct (FieldByName_declared UserFields fvs (exported "FirstName" "first_name")
                Hfvs) as (fv & Hfv & _).
    { apply list_elem_of_In. simpl. tauto. }
    exists fv. split; [exact Hfv|].
    unfold FieldByName in Hfv. injection Hfv as Hfv.
    unfold projection. cbn [fold_left fieldValue pascal snake fst snd].
    change (reflect.Name (exported "FirstName" "first_name")) with "FirstName" in Hfv.
    rewrite Hfv. reflexivity. }
  pose proof (With_projection (Concrete User) reflect.Struct
                {| Page := page; RPP := rpp; Payload := Some [r1; r2; r3] |}
                [r1; r2; r3] scenarioRequest _ eq_refl eq_refl
                ltac:(discriminate) Hty ltac:(discriminate) Hres Hread) as HW.
  inversion Hty as [|? ? H1 Hty']; subst.
  inversion Hty' as [|? ? H2 Hty'']; subst.
  inversion Hty'' as [|? ? H3 _]; subst.
  destruct (Hfield r1 H1) as (fv1 & Hf1 & Hp1).
  destruct (Hfield r2 H2) as (fv2 & Hf2 & Hp2).
  destruct (Hfield r3 H3) as (fv3 & Hf3 & Hp3).
  exists fv1, fv2, fv3. repeat (split; [assumption|]).
  rewrite HW. cbn [fmap list_fmap Page RPP]. rewrite Hp1, Hp2, Hp3. reflexivity.
Qed.

(** C5.  Fixed-schema field resolution.  The cut set is the eight bytes
    newline, bell, backspace, form feed, carriage return, tab, vertical
    tab and space; normalization removes from both ends of a raw name the
    longest runs of such bytes.  Against a struct type the resolver never
    fails and handles each raw name as follows: a name that normalizes to
    the empty string is discarded; a name that is the alias of no
    declared field yields no descriptor; otherwise the first field in
    declaration order whose json alias equals the name yields the
    descriptor (alias, field name), unless the name is resolved already.
    In the concrete scenario (three [User] records, the request
    [first_name], [first_name] with a trailing space, [unknown] and the
    empty string) exactly the descriptor
    of [first_name] is resolved, and the output has three records, each
    mapping [first_name] to the value of the record's [FirstName], in the
    original order. *)
Theorem fixed_schema_resolution :
  (forall c,
     strings.IndexByte cutset c = true <->
     c ∈ [ascii_of_nat 10; ascii_of_nat 7; ascii_of_nat 8; ascii_of_nat 12;
          ascii_of_nat 13; ascii_of_nat 9; ascii_of_nat 11; ascii_of_nat 32])
  /\ (forall raw,
        exists pre post,
          raw = pre +:+ strings.Trim raw cutset +:+ post
          /\ allIn cutset pre = true /\ allIn cutset post = true
          /\ (forall c, firstByte (strings.Trim raw cutset) = Some c ->
                        strings.IndexByte cutset c = false)
          /\ (forall c, lastByte (strings.Trim raw cutset) = Some c ->
                        strings.IndexByte cutset c = false))
  /\ (forall declared fields,
        sanitizeFields (Concrete (reflect.StructType declared)) fields
        = Return (fold_left (sanitizeStruct (reflect.StructType declared)) fields []))
  /\ (forall declared resolved raw,
        let name := strings.Trim raw cutset in
        (name = EmptyString ->
         sanitizeStruct (reflect.StructType declared) resolved raw = resolved)
        /\ ((forall record, record ∈ declared -> tagValue record <> name) ->
            sanitizeStruct (reflect.StructType declared) resolved raw = resolved)
        /\ (forall i record,
              name <> EmptyString ->
              contains resolved name = false ->
              declared !! i = Some record -> tagValue record = name ->
              (forall j earlier, (j < i)%nat -> declared !! j = Some earlier ->
                                 tagValue earlier <> name) ->
              sanitizeStruct (reflect.StructType declared) resolved raw
              = resolved ++ [(name, reflect.Name record)]))
  /\ (forall page rpp r1 r2 r3,
        Forall (has_type (Concrete User)) [r1; r2; r3] ->
        exists fv1 fv2 fv3,
          FieldByName r1 "FirstName" = Return (Some fv1)
          /\ FieldByName r2 "FirstName" = Return (Some fv2)
          /\ FieldByName r3 "FirstName" = Return (Some fv3)
          /\ sanitizeFields (Concrete User) scenarioRequest
             = Return [("first_name", "FirstName")]
          /\ With (Concrete User)
                  {| Page := page; RPP := rpp; Payload := Some [r1; r2; r3] |}
                  scenarioRequest
             = Return {| Page := page; RPP := rpp;
                         Payload := Some [ {["first_name" := fv1.2]};
                                           {["first_name" := fv2.2]};
                                           {["first_name" := fv3.2]} ] |}).
Proof.
  split; [exact cutset_bytes|]. split; [intros raw; apply Trim_spec|].
  split; [reflexivity|]. split; [|exact first_name_scenario].
  intros declared resolved raw name.
  rewrite sanitizeStruct_resolveStep. unfold resolveStep. fold name.
  split; [|split].
  - intros Hname. rewrite decide_True by assumption. reflexivity.
  - intros Hnone. apply firstMatch_None in Hnone. rewrite Hnone.
    case_decide; [reflexivity|]. destruct (contains resolved name); reflexivity.
  - intros i record Hname Hc Hi Htag Hmin.
    rewrite decide_False by assumption. rewrite Hc.
    assert (firstMatch declared name = Some record) as ->; [|reflexivity].
    apply firstMatch_spec. eauto.
Qed.

(** A sample of C5: the scenario on three users. *)
Lemma fixed_schema_resolution_witness :
  With (Concrete User) threeUsers scenarioRequest
  = Return {| Page := 1; RPP := 3;
              Payload := Some [ {["first_name" := StringV "Ada"]};
                                {["first_name" := StringV "Alan"]};
                                {["first_name" := StringV "Grace"]} ] |}.
Proof.
  destruct fixed_schema_resolution as (_ & _ & _ & _ & Hscenario).
  destruct (Hscenario 1 3 (sampleUser "1" "Ada") (sampleUser "2" "Alan")
              (sampleUser "3" "Grace") ltac:(repeat constructor))
    as (fv1 & fv2 & fv3 & H1 & H2 & H3 & _ & HW).
  vm_compute in H1, H2, H3.
  injection H1 as <-. injection H2 as <-. injection H3 as <-.
  exact HW.
Defined.

(** ** Dynamic records *)









